(** * Van Deemter plate-height calculator: model and properties

    Shallow embedding of [vandeemter_app.py].  The script reads three
    coefficients and a flow rate from sliders, samples the Van Deemter
    curve [H = A + B/u + C*u] on [np.linspace(1, 200, 400)], locates the
    sampled minimum with [np.min] / [np.argmin], and evaluates the
    equation once more at the selected flow rate.

    Numbers.  Python floats and numpy float64 values are embedded as
    exact rationals [Q]: rounding, overflow and signed zeros of binary64
    are abstracted away.  What numpy adds to the finite values when an
    array is divided by zero (plus or minus infinity, not-a-number) is
    kept, in the type [npfloat], because that is where the array path
    and the scalar path of [van_deemter] differ: a Python scalar
    division by zero raises, a numpy one does not.

    The module [Binary64] at the end of the definitions repeats the
    script on machine floats.  The theorems about the exact model are
    stated so that rounding does not bear on them (which exception is
    raised, which element a comparison selects, values that both call
    paths compute alike, inequalities that monotone rounding keeps).
    Where a statement of the specification depends on exact arithmetic
    (exact spacing, strict order, the place of a tie), [Binary64] gives
    the input on which the program departs from it, and the statement is
    amended to what holds on both. *)

From Stdlib Require Import ZArith QArith List Bool Lia Lqa.
From Stdlib Require Import Uint63 Floats.
Import ListNotations.

Local Open Scope Q_scope.

(** ** Exceptions and the error monad *)

Module Py.

(** The exceptions the modelled fragment can raise. *)
Inductive exn : Set :=
  | ZeroDivisionError   (* float division by zero, Python scalars *)
  | ValueError          (* numpy: reduction of a zero-size array,
                           negative number of samples *)
  | IndexError.         (* numpy: index out of bounds *)

Definition result (T : Type) : Type := (exn + T)%type.

Definition ret {T : Type} (x : T) : result T := inr x.

Definition raise {T : Type} (e : exn) : result T := inl e.

Definition bind {T U : Type} (c : result T) (k : T -> result U) : result U :=
  match c with
  | inl e => inl e
  | inr x => k x
  end.

Definition raises {T : Type} (c : result T) : Prop :=
  exists e, c = inl e.

End Py.

Import Py.

Notation "x <- c ;; k" := (bind c (fun x => k))
  (at level 61, c at next level, right associativity).

(** ** numpy float64 values *)

Inductive npfloat : Set :=
  | Fin (q : Q)
  | PosInf
  | NegInf
  | NaN.

Definition np_isnan (x : npfloat) : bool :=
  match x with
  | NaN => true
  | _ => false
  end.

Definition np_isfinite (x : npfloat) : bool :=
  match x with
  | Fin _ => true
  | _ => false
  end.

(** [x <= y] on float64: false as soon as one side is not-a-number. *)
Definition np_le (x y : npfloat) : bool :=
  match x, y with
  | NaN, _ | _, NaN => false
  | NegInf, _ => true
  | _, PosInf => true
  | Fin a, Fin b => Qle_bool a b
  | PosInf, _ => false
  | Fin _, NegInf => false
  end.

(** [x >= y] is [y <= x]. *)
Definition np_ge (x y : npfloat) : bool := np_le y x.

(** [x + y] on float64. *)
Definition np_add (x y : npfloat) : npfloat :=
  match x, y with
  | NaN, _ | _, NaN => NaN
  | PosInf, NegInf | NegInf, PosInf => NaN
  | PosInf, _ | _, PosInf => PosInf
  | NegInf, _ | _, NegInf => NegInf
  | Fin a, Fin b => Fin (a + b)
  end.

(** [b / u] for finite [b] and [u] as numpy computes it: dividing by zero
    gives an infinity of the sign of [b], or not-a-number for [0 / 0],
    with a warning and no exception. *)
Definition np_true_divide (b u : Q) : npfloat :=
  if Qeq_bool u 0 then
    match b ?= 0 with
    | Gt => PosInf
    | Lt => NegInf
    | Eq => NaN
    end
  else Fin (b / u).

(** ** The equation, [van_deemter(u, A, B, C)]

    The source function is [return A + B / u + C * u].  It is called on a
    Python scalar (line 60) and on a numpy array (line 53); the two calls
    run different arithmetic, so each has its definition. *)

(** Scalar call: Python evaluates [B / u] first and raises
    [ZeroDivisionError] when [u] is zero. *)
Definition van_deemter (u A B C : Q) : result Q :=
  if Qeq_bool u 0 then raise ZeroDivisionError
  else ret (A + B / u + C * u).

(** One element of the array call. *)
Definition van_deemter_elem (A B C : Q) (u : Q) : npfloat :=
  np_add (np_add (Fin A) (np_true_divide B u)) (Fin (C * u)).

(** Array call: numpy broadcasts the scalars over [u]. *)
Definition van_deemter_arr (u : list Q) (A B C : Q) : list npfloat :=
  map (van_deemter_elem A B C) u.

(** ** numpy routines used by the script *)

(** [np.arange(0, num)] as float64. *)
Definition arange (num : Z) : list Q :=
  map (fun i : nat => inject_Z (Z.of_nat i)) (seq 0 (Z.to_nat num)).

(** [y[-1] = v] on an array that is not empty. *)
Definition set_last (y : list Q) (v : Q) : list Q :=
  removelast y ++ [v].

(** [np.linspace(start, stop, num)] with its default [endpoint=True]. *)
Definition linspace (start stop : Q) (num : Z) : result (list Q) :=
  if (num <? 0)%Z then raise ValueError
  else
    let div := (num - 1)%Z in
    let delta := stop - start in
    let y := arange num in
    let y :=
      if (div >? 0)%Z then
        let step := delta / inject_Z div in
        if Qeq_bool step 0 then
          map (fun i => i / inject_Z div * delta) y
        else
          map (fun i => i * step) y
      else
        map (fun i => i * delta) y in
    let y := map (fun v => v + start) y in
    ret (if (num >? 1)%Z then set_last y stop else y).

(** The binary minimum numpy reduces with: the accumulator is kept when
    it is smaller or equal, or when it is not-a-number. *)
Definition np_minimum (io1 in2 : npfloat) : npfloat :=
  if np_le io1 in2 || np_isnan io1 then io1 else in2.

(** [np.min(a)]: raises on a zero-size array. *)
Definition np_min (a : list npfloat) : result npfloat :=
  match a with
  | [] => raise ValueError
  | x :: a' => ret (fold_left np_minimum a' x)
  end.

(** The scan of [np.argmin]: [mp] is the smallest value so far, found at
    [min_ind]; [i] is the index of the head of the remaining elements.
    A not-a-number stops the scan. *)
Fixpoint argmin_scan (mp : npfloat) (min_ind i : nat) (ip : list npfloat) : nat :=
  match ip with
  | [] => min_ind
  | x :: ip' =>
      if np_isnan mp then min_ind
      else if negb (np_ge x mp) then argmin_scan x i (S i) ip'
      else argmin_scan mp min_ind (S i) ip'
  end.

(** [np.argmin(a)]: index of the first occurrence of the minimum. *)
Definition np_argmin (a : list npfloat) : result nat :=
  match a with
  | [] => raise ValueError
  | x :: a' => ret (argmin_scan x 0 1 a')
  end.

(** [a[i]] for a non-negative index. *)
Definition getitem {T : Type} (a : list T) (i : nat) : result T :=
  match nth_error a i with
  | Some x => ret x
  | None => raise IndexError
  end.

(** ** The script

    Lines 52-60 of the source, with the arrays [u_values] and [H_values]
    forming the curve.  [sampleCurve] and [findMinimum] are lines 52-53
    and 56-57 with the constants of the script taken as arguments;
    [optimum] and [vandeemter_app] are the script itself. *)

(** A curve is the pair of parallel arrays the chart is drawn from. *)
Record curve : Type := mkCurve {
  curve_u : list Q;
  curve_H : list npfloat
}.

(** The curve as a sequence of (u, H) pairs. *)
Definition points (c : curve) : list (Q * npfloat) :=
  combine (curve_u c) (curve_H c).

(** Lines 52-53: [u_values = np.linspace(...)],
    [H_values = van_deemter(u_values, A, B, C)]. *)
Definition sampleCurve (u_min u_max : Q) (sampleCount : Z) (A B C : Q)
  : result curve :=
  u_values <- linspace u_min u_max sampleCount ;;
  ret (mkCurve u_values (van_deemter_arr u_values A B C)).

(** Lines 56-57: [H_min = np.min(H_values)],
    [u_opt = u_values[np.argmin(H_values)]]. *)
Definition findMinimum (c : curve) : result (Q * npfloat) :=
  H_min <- np_min (curve_H c) ;;
  i <- np_argmin (curve_H c) ;;
  u_opt <- getitem (curve_u c) i ;;
  ret (u_opt, H_min).

(** The sampling domain and count of the script. *)
Definition U_MIN : Q := 1.
Definition U_MAX : Q := 200.
Definition SAMPLES : Z := 400.

(** Lines 52-57: the curve and its optimal point. *)
Definition optimum (A B C : Q) : result (curve * (Q * npfloat)) :=
  c <- sampleCurve U_MIN U_MAX SAMPLES A B C ;;
  opt <- findMinimum c ;;
  ret (c, opt).

(** What the script hands to the chart and to the summary. *)
Record output : Type := mkOutput {
  out_curve : curve;
  u_opt : Q;
  H_min : npfloat;
  H_current : Q
}.

(** Lines 52-60.  [current_u] is the integer the flow-rate slider
    returns; the coefficients are the floats of the other sliders. *)
Definition vandeemter_app (A B C : Q) (current_u : Z) : result output :=
  r <- optimum A B C ;;
  H_cur <- van_deemter (inject_Z current_u) A B C ;;
  ret (mkOutput (fst r) (fst (snd r)) (snd (snd r)) H_cur).

(** The values the sliders of lines 23-44 can return. *)
Definition slider_A (A : Q) : Prop := 0 <= A <= 2.
Definition slider_B (B : Q) : Prop := 0 <= B <= 1.
Definition slider_C (C : Q) : Prop := 0 <= C <= 1 # 10.
Definition slider_u (u : Z) : Prop := (1 <= u <= 200)%Z.

(** ** The script on binary64

    The same lines on IEEE 754 double precision numbers, with the
    rounding of every operation.  Infinities and not-a-number are values
    of the type here, so the array call needs no separate element type. *)

Module Binary64.

Local Open Scope float_scope.

(** A Python [int] used in float arithmetic. *)
Definition of_int (z : Z) : float := PrimFloat.of_uint63 (Uint63.of_Z z).

(** Scalar call of [van_deemter]. *)
Definition van_deemter (u A B C : float) : result float :=
  if u =? 0 then raise ZeroDivisionError
  else ret (A + B / u + C * u).

(** Array call of [van_deemter]. *)
Definition van_deemter_arr (u : list float) (A B C : float) : list float :=
  map (fun ui => A + B / ui + C * ui) u.

Definition arange (num : Z) : list float :=
  map (fun i : nat => of_int (Z.of_nat i)) (seq 0 (Z.to_nat num)).

Definition set_last (y : list float) (v : float) : list float :=
  removelast y ++ [v].

Definition linspace (start stop : float) (num : Z) : result (list float) :=
  if (num <? 0)%Z then raise ValueError
  else
    let div := (num - 1)%Z in
    let delta := stop - start in
    let y := arange num in
    let y :=
      if (div >? 0)%Z then
        let step := delta / of_int div in
        if step =? 0 then
          map (fun i => i / of_int div * delta) y
        else
          map (fun i => i * step) y
      else
        map (fun i => i * delta) y in
    let y := map (fun v => v + start) y in
    ret (if (num >? 1)%Z then set_last y stop else y).

Definition np_minimum (io1 in2 : float) : float :=
  if (io1 <=? in2) || PrimFloat.is_nan io1 then io1 else in2.

Definition np_min (a : list float) : result float :=
  match a with
  | [] => raise ValueError
  | x :: a' => ret (fold_left np_minimum a' x)
  end.

Fixpoint argmin_scan (mp : float) (min_ind i : nat) (ip : list float) : nat :=
  match ip with
  | [] => min_ind
  | x :: ip' =>
      if PrimFloat.is_nan mp then min_ind
      else if negb (mp <=? x) then argmin_scan x i (S i) ip'
      else argmin_scan mp min_ind (S i) ip'
  end.

Definition np_argmin (a : list float) : result nat :=
  match a with
  | [] => raise ValueError
  | x :: a' => ret (argmin_scan x 0 1 a')
  end.

Record output : Type := mkOutput {
  u_values : list float;
  H_values : list float;
  u_opt : float;
  H_min : float;
  H_current : float
}.

(** Lines 52-60. *)
Definition vandeemter_app (A B C : float) (current_u : Z) : result output :=
  u_values <- linspace (of_int 1) (of_int 200) 400 ;;
  let H_values := van_deemter_arr u_values A B C in
  H_min <- np_min H_values ;;
  i <- np_argmin H_values ;;
  u_opt <- getitem u_values i ;;
  H_cur <- van_deemter (of_int current_u) A B C ;;
  ret (mkOutput u_values H_values u_opt H_min H_cur).

Fixpoint increasingb (us : list float) : bool :=
  match us with
  | a :: (b :: _) as t => (a <? b) && increasingb t
  | _ => true
  end.






(** The default positions of the coefficient sliders. *)
#[warnings="-inexact-float"]
Definition A_default : float := 0.5.
#[warnings="-inexact-float"]
Definition B_default : float := 0.1.
#[warnings="-inexact-float"]
Definition C_default : float := 0.01.

End Binary64.

(** Decidable forms of the invariants of a curve. *)
Fixpoint increasingb (us : list Q) : bool :=
  match us with
  | a :: (b :: _) as t => negb (Qle_bool b a) && increasingb t
  | _ => true
  end.

Definition no_nanb (Hs : list npfloat) : bool :=
  forallb (fun h => negb (np_isnan h)) Hs.

(** The same invariants as propositions. *)
Definition strictly_increasing (us : list Q) : Prop :=
  forall i j a b, (i < j)%nat ->
    nth_error us i = Some a -> nth_error us j = Some b -> a < b.

Definition no_nan (Hs : list npfloat) : Prop :=
  Forall (fun h => np_isnan h = false) Hs.

Definition all_finite (Hs : list npfloat) : Prop :=
  Forall (fun h => np_isfinite h = true) Hs.

(** A curve in the sense of the data model: parallel arrays of the same
    length and plate heights that are numbers. *)
Definition well_formed (c : curve) : Prop :=
  length (curve_u c) = length (curve_H c) /\ no_nan (curve_H c).

(** ** Vocabulary of the properties *)

(** [m] is the value at index [i] of [l], it is a lower bound of [l],
    and every element before [i] is strictly greater. *)
Definition first_min (l : list npfloat) (i : nat) (m : npfloat) : Prop :=
  nth_error l i = Some m /\
  (forall y, In y l -> np_le m y = true) /\
  (forall j y, (j < i)%nat -> nth_error l j = Some y -> np_le y m = false).

(** The [i]-th sample before the last element is overwritten. *)
Definition sample (start stop : Q) (num : Z) (i : nat) : Q :=
  inject_Z (Z.of_nat i) * ((stop - start) / inject_Z (num - 1)) + start.

(** The array [np.linspace] returns for at least two samples over an
    interval that is not empty. *)
Definition grid (start stop : Q) (num : Z) : list Q :=
  map (sample start stop num) (seq 0 (Z.to_nat num - 1)) ++ [stop].

(** A curve with a tie: the second and third point both have the
    minimal plate height. *)
Definition tied_curve : curve :=
  mkCurve [1; 2; 3; 4] [Fin 3; Fin 1; Fin (2 # 2); Fin 2].

(** The script on binary64 at the default coefficients. *)
Definition run_binary64 (current_u : Z) : option Binary64.output :=
  match Binary64.vandeemter_app Binary64.A_default Binary64.B_default
          Binary64.C_default current_u with
  | inr r => Some r
  | inl _ => None
  end.

(** * Properties *)

(** ** The error monad *)

Lemma bind_inr {T U : Type} (c : result T) (k : T -> result U) (x : T) :
  c = inr x -> bind c k = k x.
Proof. intros ->. reflexivity. Qed.

(** ** The order on float64 values *)

Ltac np_cases :=
  repeat match goal with
         | x : npfloat |- _ => destruct x
         end;
  simpl in *; try reflexivity; try congruence.

Lemma np_le_refl (x : npfloat) : np_isnan x = false -> np_le x x = true.
Proof.
  intros Hx. np_cases. apply Qle_bool_iff. lra.
Qed.

Lemma np_le_trans (x y z : npfloat) :
  np_le x y = true -> np_le y z = true -> np_le x z = true.
Proof.
  intros Hxy Hyz. np_cases.
  apply Qle_bool_iff in Hxy, Hyz. apply Qle_bool_iff. lra.
Qed.

Lemma np_le_total (x y : npfloat) :
  np_isnan x = false -> np_isnan y = false ->
  np_le x y = true \/ np_le y x = true.
Proof.
  intros Hx Hy. np_cases; auto.
  rewrite !Qle_bool_iff. lra.
Qed.

Lemma np_le_false (x y : npfloat) :
  np_isnan x = false -> np_isnan y = false ->
  np_le x y = false -> np_le y x = true.
Proof.
  intros Hx Hy Hxy.
  destruct (np_le_total x y Hx Hy) as [H | H]; congruence.
Qed.

Lemma np_le_Fin (a b : Q) : np_le (Fin a) (Fin b) = true <-> a <= b.
Proof. simpl. apply Qle_bool_iff. Qed.

Lemma np_le_Fin_false (a b : Q) : np_le (Fin a) (Fin b) = false <-> b < a.
Proof.
  simpl. split; intros H.
  - destruct (Qlt_le_dec b a) as [Hlt | Hle]; [assumption|].
    apply Qle_bool_iff in Hle. congruence.
  - destruct (Qle_bool a b) eqn:E; [|reflexivity].
    apply Qle_bool_iff in E. lra.
Qed.

Lemma finite_not_nan (x : npfloat) : np_isfinite x = true -> np_isnan x = false.
Proof. destruct x; simpl; congruence. Qed.

Lemma all_finite_no_nan (Hs : list npfloat) : all_finite Hs -> no_nan Hs.
Proof.
  unfold all_finite, no_nan. intros H.
  eapply Forall_impl; [|exact H]. intros a. apply finite_not_nan.
Qed.

Lemma no_nanb_spec (Hs : list npfloat) : no_nanb Hs = true -> no_nan Hs.
Proof.
  unfold no_nanb, no_nan. rewrite forallb_forall, Forall_forall.
  intros H x Hx. specialize (H x Hx). now destruct (np_isnan x).
Qed.

(** ** [np.min] and [np.argmin] *)

Lemma first_min_snoc_keep (pre : list npfloat) (i : nat) (m x : npfloat) :
  first_min pre i m -> np_le m x = true -> first_min (pre ++ [x]) i m.
Proof.
  intros (Hn & Hlb & Hfirst) Hmx.
  assert (Hi : (i < length pre)%nat)
    by (apply nth_error_Some; congruence).
  repeat split.
  - rewrite nth_error_app1; assumption.
  - intros y Hy. apply in_app_or in Hy as [Hy | [<- | []]]; auto.
  - intros j y Hj Hy. rewrite nth_error_app1 in Hy by lia. eauto.
Qed.

Lemma first_min_snoc_take (pre : list npfloat) (i : nat) (m x : npfloat) :
  no_nan (pre ++ [x]) ->
  first_min pre i m -> np_le m x = false ->
  first_min (pre ++ [x]) (length pre) x.
Proof.
  intros Hnan (Hn & Hlb & Hfirst) Hmx.
  unfold no_nan in Hnan. rewrite Forall_forall in Hnan.
  assert (Hx : np_isnan x = false)
    by (apply Hnan, in_or_app; right; now left).
  assert (Hm : np_isnan m = false)
    by (apply Hnan, in_or_app; left; eapply nth_error_In; eassumption).
  assert (Hxm : np_le x m = true) by (apply np_le_false; assumption).
  repeat split.
  - rewrite nth_error_app2, Nat.sub_diag by lia. reflexivity.
  - intros y Hy. apply in_app_or in Hy as [Hy | [<- | []]].
    + eapply np_le_trans; [exact Hxm | auto].
    + now apply np_le_refl.
  - intros j y Hj Hy. rewrite nth_error_app1 in Hy by lia.
    destruct (np_le y x) eqn:E; [|reflexivity].
    assert (np_le m x = true); [|congruence].
    eapply np_le_trans; [|exact E].
    apply Hlb. eapply nth_error_In; eassumption.
Qed.

(** The reduction and the scan walk the array in step: after any prefix
    they hold the first minimum of that prefix and its index. *)
Lemma scan_first_min (ip pre : list npfloat) :
  forall (mp : npfloat) (min_ind : nat),
    no_nan (pre ++ ip) ->
    first_min pre min_ind mp ->
    first_min (pre ++ ip)
              (argmin_scan mp min_ind (length pre) ip)
              (fold_left np_minimum ip mp).
Proof.
  revert pre. induction ip as [| x ip' IH]; intros pre mp min_ind Hnan Hfm.
  - rewrite app_nil_r. exact Hfm.
  - assert (Hm : np_isnan mp = false).
    { unfold no_nan in Hnan. rewrite Forall_forall in Hnan.
      apply Hnan, in_or_app. left.
      destruct Hfm as (Hn & _). eapply nth_error_In; eassumption. }
    assert (Hnan' : no_nan (pre ++ [x])).
    { unfold no_nan in *. rewrite Forall_forall in *.
      intros y Hy. apply Hnan. apply in_app_or in Hy as [Hy | [<- | []]];
        apply in_or_app; [left | right; left]; auto. }
    replace (pre ++ x :: ip') with ((pre ++ [x]) ++ ip') in *
      by (rewrite <- app_assoc; reflexivity).
    simpl. rewrite Hm. unfold np_ge, np_minimum. rewrite Hm, orb_false_r.
    replace (S (length pre)) with (length (pre ++ [x]))
      by (rewrite length_app; simpl; lia).
    destruct (np_le mp x) eqn:E; simpl.
    + apply IH; [assumption|]. now apply first_min_snoc_keep.
    + apply IH; [assumption|].
      eapply first_min_snoc_take; eassumption.
Qed.

(** On an array without not-a-number, [np.min] and [np.argmin] succeed
    and agree: the index is that of the first occurrence of the value. *)
Lemma np_min_argmin (a : list npfloat) :
  a <> [] -> no_nan a ->
  exists i m, np_min a = inr m /\ np_argmin a = inr i /\ first_min a i m.
Proof.
  intros Hne Hnan. destruct a as [| x a']; [congruence|].
  exists (argmin_scan x 0 1 a'), (fold_left np_minimum a' x).
  repeat split; try reflexivity;
    pose proof (scan_first_min a' [x] x 0%nat Hnan) as H; simpl in H;
    apply H; repeat split; simpl; auto.
  all: try (intros y [<- | []]; apply np_le_refl; now inversion Hnan).
  all: intros; lia.
Qed.

(** ** Curves as sequences of points *)

Lemma nth_error_combine {T U : Type} (l : list T) (l' : list U) :
  forall i x y,
    nth_error (combine l l') i = Some (x, y) <->
    nth_error l i = Some x /\ nth_error l' i = Some y.
Proof.
  revert l'. induction l as [| a l IH]; intros [| b l'] [| i] x y; simpl;
    try (split; [discriminate | intros [? ?]; discriminate]).
  - split; [intros [= -> ->]; auto | intros [[= ->] [= ->]]; reflexivity].
  - apply IH.
Qed.



Lemma points_nth (c : curve) (i : nat) (u : Q) (H : npfloat) :
  nth_error (curve_u c) i = Some u -> nth_error (curve_H c) i = Some H ->
  In (u, H) (points c).
Proof.
  intros Hu HH. apply nth_error_In with (n := i).
  apply nth_error_combine. auto.
Qed.

Lemma points_In (c : curve) (u : Q) (H : npfloat) :
  In (u, H) (points c) ->
  exists i, nth_error (curve_u c) i = Some u /\ nth_error (curve_H c) i = Some H.
Proof.
  intros Hin. apply In_nth_error in Hin as [i Hi].
  exists i. now apply nth_error_combine.
Qed.

(** ** [findMinimum] *)

Lemma findMinimum_first_min (c : curve) :
  well_formed c -> curve_H c <> [] ->
  exists i u H,
    findMinimum c = inr (u, H) /\
    nth_error (curve_u c) i = Some u /\
    first_min (curve_H c) i H.
Proof.
  intros [Hlen Hnan] Hne.
  destruct (np_min_argmin (curve_H c) Hne Hnan) as (i & m & Hmin & Harg & Hfm).
  assert (Hi : (i < length (curve_u c))%nat).
  { rewrite Hlen. apply nth_error_Some. destruct Hfm as [-> _]. discriminate. }
  destruct (nth_error (curve_u c) i) as [u |] eqn:Hu;
    [| apply nth_error_None in Hu; lia].
  exists i, u, m. repeat split; try apply Hfm; auto.
  unfold findMinimum, getitem. rewrite Hmin, Harg. simpl. rewrite Hu.
  reflexivity.
Qed.

(** ** [np.linspace] *)

Lemma inject_Z_pos (z : Z) : (0 < z)%Z -> 0 < inject_Z z.
Proof. intros H. unfold Qlt. simpl. lia. Qed.

Lemma inject_Z_nonneg (i : nat) : 0 <= inject_Z (Z.of_nat i).
Proof. unfold Qle. simpl. lia. Qed.

Lemma inject_Z_succ (i : nat) :
  inject_Z (Z.of_nat (S i)) == inject_Z (Z.of_nat i) + 1.
Proof. rewrite Nat2Z.inj_succ. unfold Z.succ. rewrite inject_Z_plus. reflexivity. Qed.

Lemma inject_Z_lt (i j : nat) :
  (i < j)%nat -> inject_Z (Z.of_nat i) < inject_Z (Z.of_nat j).
Proof. intros H. rewrite <- Zlt_Qlt. lia. Qed.

Lemma linspace_eq (start stop : Q) (num : Z) :
  (2 <= num)%Z -> start < stop ->
  linspace start stop num =
  inr (map (sample start stop num) (seq 0 (Z.to_nat num - 1)) ++ [stop]).
Proof.
  intros Hn Hlt. unfold linspace.
  assert (Hd : 0 < inject_Z (num - 1)) by (apply inject_Z_pos; lia).
  destruct (num <? 0)%Z eqn:E1; [lia|].
  destruct (num - 1 >? 0)%Z eqn:E2; [|lia].
  destruct (num >? 1)%Z eqn:E3; [|lia].
  destruct (Qeq_bool ((stop - start) / inject_Z (num - 1)) 0) eqn:E4.
  { apply Qeq_bool_iff in E4.
    assert (Hs : stop - start ==
                 (stop - start) / inject_Z (num - 1) * inject_Z (num - 1))
      by (field; lra).
    rewrite E4 in Hs. lra. }
  unfold ret, arange, set_last. f_equal. rewrite !map_map.
  destruct (Z.to_nat num) as [| k] eqn:Ek; [lia|].
  rewrite seq_S, map_app. simpl. rewrite removelast_last.
  rewrite Nat.sub_0_r. reflexivity.
Qed.

Section Grid.

Variables (start stop : Q) (num : Z).
Hypothesis Hnum : (2 <= num)%Z.
Hypothesis Hlt : start < stop.

Let step : Q := (stop - start) / inject_Z (num - 1).

Lemma step_pos : 0 < step.
Proof.
  unfold step. apply Qlt_shift_div_l; [apply inject_Z_pos; lia | lra].
Qed.

Lemma grid_length : length (grid start stop num) = Z.to_nat num.
Proof.
  unfold grid. rewrite length_app, length_map, length_seq. simpl. lia.
Qed.

Lemma sample_last : sample start stop num (Z.to_nat num - 1) == stop.
Proof.
  unfold sample.
  replace (Z.of_nat (Z.to_nat num - 1)) with (num - 1)%Z by lia.
  field. assert (0 < inject_Z (num - 1)) by (apply inject_Z_pos; lia). lra.
Qed.

(** Every element is the sample of its index, the overwritten last one
    included. *)
Lemma grid_nth (i : nat) (x : Q) :
  nth_error (grid start stop num) i = Some x ->
  (i < Z.to_nat num)%nat /\ x == sample start stop num i.
Proof.
  intros Hx.
  assert (Hi : (i < Z.to_nat num)%nat).
  { rewrite <- grid_length. apply nth_error_Some. congruence. }
  split; [assumption|]. unfold grid in Hx.
  destruct (Nat.eq_dec i (Z.to_nat num - 1)) as [-> | Hne].
  - rewrite nth_error_app2 in Hx by (rewrite length_map, length_seq; lia).
    rewrite length_map, length_seq, Nat.sub_diag in Hx.
    injection Hx as <-. symmetry. apply sample_last.
  - rewrite nth_error_app1 in Hx by (rewrite length_map, length_seq; lia).
    rewrite nth_error_map, nth_error_seq in Hx.
    destruct (Nat.ltb_spec i (Z.to_nat num - 1)); [|lia].
    injection Hx as <-. reflexivity.
Qed.

Lemma grid_nth_lt (i : nat) :
  (i < Z.to_nat num)%nat ->
  exists x, nth_error (grid start stop num) i = Some x.
Proof.
  intros Hi. rewrite <- grid_length in Hi.
  apply nth_error_Some in Hi.
  destruct (nth_error (grid start stop num) i) as [x |]; [eauto | congruence].
Qed.

Lemma grid_first : exists x, hd_error (grid start stop num) = Some x /\ x == start.
Proof.
  destruct (grid_nth_lt 0) as [x Hx]; [lia|].
  exists x. split.
  - destruct (grid start stop num); simpl in *; congruence.
  - apply grid_nth in Hx as [_ ->]. unfold sample. simpl. ring.
Qed.


Lemma grid_last_nth :
  nth_error (grid start stop num) (Z.to_nat num - 1) = Some stop.
Proof.
  unfold grid.
  rewrite nth_error_app2 by (rewrite length_map, length_seq; lia).
  rewrite length_map, length_seq, Nat.sub_diag. reflexivity.
Qed.

Lemma grid_increasing : strictly_increasing (grid start stop num).
Proof.
  intros i j a b Hij Ha Hb.
  apply grid_nth in Ha as [_ ->]. apply grid_nth in Hb as [_ ->].
  unfold sample. fold step.
  pose proof step_pos as Hs. pose proof (inject_Z_lt i j Hij) as Hinj.
  apply (Qmult_lt_compat_r _ _ step Hs) in Hinj. lra.
Qed.

Lemma grid_lower (x : Q) : In x (grid start stop num) -> start <= x.
Proof.
  intros Hx. apply In_nth_error in Hx as [i Hi].
  apply grid_nth in Hi as [_ ->]. unfold sample. fold step.
  pose proof step_pos as Hs. pose proof (inject_Z_nonneg i) as Hi.
  assert (0 <= inject_Z (Z.of_nat i) * step)
    by (apply Qmult_le_0_compat; lra).
  lra.
Qed.

Lemma grid_upper (x : Q) : In x (grid start stop num) -> x <= stop.
Proof.
  intros Hx. apply In_nth_error in Hx as [i Hi].
  destruct (Nat.eq_dec i (Z.to_nat num - 1)) as [-> | Hne].
  - rewrite grid_last_nth in Hi. injection Hi as <-. lra.
  - assert (Hlti : (i < Z.to_nat num - 1)%nat).
    { apply grid_nth in Hi as [? _]. lia. }
    apply Qlt_le_weak.
    apply (grid_increasing i (Z.to_nat num - 1)%nat x stop Hlti Hi grid_last_nth).
Qed.

End Grid.

(** ** The invariants in decidable form *)

Lemma increasingb_head (t : list Q) :
  forall a, increasingb (a :: t) = true -> forall b, In b t -> a < b.
Proof.
  induction t as [| b0 t IH]; intros a Hinc b Hb; [contradiction|].
  simpl in Hinc. apply andb_prop in Hinc as [Hab Ht].
  assert (Hlt : a < b0).
  { apply np_le_Fin_false. simpl. now destruct (Qle_bool b0 a). }
  destruct Hb as [<- | Hb]; [assumption|].
  apply Qlt_trans with b0; [assumption|]. now apply IH.
Qed.

Lemma increasingb_spec (us : list Q) :
  increasingb us = true -> strictly_increasing us.
Proof.
  induction us as [| a t IH]; intros Hinc i j x y Hij Hx Hy.
  - destruct i; discriminate.
  - destruct j as [| j]; [lia|]. simpl in Hy.
    destruct i as [| i]; simpl in Hx.
    + injection Hx as <-.
      eapply increasingb_head; [eassumption|].
      eapply nth_error_In; eassumption.
    + apply (IH) with (i := i) (j := j); auto; [|lia].
      destruct t as [| b t']; [reflexivity|].
      simpl in Hinc. now apply andb_prop in Hinc as [_ ?].
Qed.

(** ** The equation *)

Lemma van_deemter_nonzero (u A B C : Q) :
  ~ u == 0 -> van_deemter u A B C = inr (A + B / u + C * u).
Proof.
  intros Hu. unfold van_deemter.
  destruct (Qeq_bool u 0) eqn:E; [|reflexivity].
  apply Qeq_bool_iff in E. contradiction.
Qed.

Lemma van_deemter_zero (u A B C : Q) :
  u == 0 -> van_deemter u A B C = inl ZeroDivisionError.
Proof.
  intros Hu. unfold van_deemter.
  apply Qeq_bool_iff in Hu. rewrite Hu. reflexivity.
Qed.

Lemma van_deemter_elem_nonzero (u A B C : Q) :
  ~ u == 0 -> van_deemter_elem A B C u = Fin (A + B / u + C * u).
Proof.
  intros Hu. unfold van_deemter_elem, np_true_divide.
  destruct (Qeq_bool u 0) eqn:E; [|reflexivity].
  apply Qeq_bool_iff in E. contradiction.
Qed.


(** ** Sampled curves *)

Section Sampled.

Variables (u_min u_max : Q) (sampleCount : Z) (A B C : Q).
Hypothesis Hmin : 0 < u_min.
Hypothesis Hmax : u_min < u_max.
Hypothesis Hcount : (2 <= sampleCount)%Z.

Let us : list Q := grid u_min u_max sampleCount.

Lemma sampleCurve_eq :
  sampleCurve u_min u_max sampleCount A B C =
  inr (mkCurve us (van_deemter_arr us A B C)).
Proof.
  unfold sampleCurve. rewrite linspace_eq by assumption. reflexivity.
Qed.

Lemma grid_positive (x : Q) : In x us -> 0 < x.
Proof.
  intros Hx. apply grid_lower in Hx; [lra | assumption | assumption].
Qed.

(** Every plate height of the curve is the value of the equation at
    its flow rate. *)
Lemma sampled_nth (i : nat) (H : npfloat) :
  nth_error (van_deemter_arr us A B C) i = Some H ->
  exists u, nth_error us i = Some u /\ 0 < u /\
            H = Fin (A + B / u + C * u).
Proof.
  unfold van_deemter_arr. rewrite nth_error_map.
  destruct (nth_error us i) as [u |] eqn:Hu; simpl; [|discriminate].
  intros [= <-]. exists u.
  assert (Hpos : 0 < u) by (eapply grid_positive, nth_error_In; eassumption).
  repeat split; [assumption|].
  apply van_deemter_elem_nonzero. lra.
Qed.

Lemma sampled_finite : all_finite (van_deemter_arr us A B C).
Proof.
  unfold all_finite. apply Forall_forall. intros H HH.
  apply In_nth_error in HH as [i Hi].
  apply sampled_nth in Hi as (u & _ & _ & ->). reflexivity.
Qed.

Lemma sampled_well_formed :
  well_formed (mkCurve us (van_deemter_arr us A B C)).
Proof.
  split; simpl.
  - unfold van_deemter_arr. now rewrite length_map.
  - apply all_finite_no_nan, sampled_finite.
Qed.

Lemma sampled_nonempty : van_deemter_arr us A B C <> [].
Proof.
  intros E. apply (f_equal (@length _)) in E.
  unfold van_deemter_arr in E. rewrite length_map in E.
  unfold us in E. rewrite grid_length in E by assumption. simpl in E. lia.
Qed.

End Sampled.

(** ** The sampled minimum in terms of the equation *)

Section SampledMinimum.

Variables (u_min u_max : Q) (sampleCount : Z) (A B C : Q).
Hypothesis Hmin : 0 < u_min.
Hypothesis Hmax : u_min < u_max.
Hypothesis Hcount : (2 <= sampleCount)%Z.

Let us : list Q := grid u_min u_max sampleCount.
Let H (u : Q) : Q := A + B / u + C * u.

Lemma sampled_nth_H (j : nat) (v : Q) :
  nth_error us j = Some v ->
  0 < v /\ nth_error (van_deemter_arr us A B C) j = Some (Fin (H v)).
Proof.
  intros Hv.
  assert (Hpos : 0 < v).
  { apply (grid_positive u_min u_max sampleCount Hmin Hmax Hcount).
    eapply nth_error_In; eassumption. }
  split; [assumption|].
  unfold van_deemter_arr. rewrite nth_error_map. fold us. rewrite Hv. simpl.
  f_equal. apply van_deemter_elem_nonzero. lra.
Qed.

(** [findMinimum] returns the sample whose plate height is below or
    equal to that of every sample and strictly below that of every
    earlier one. *)
Lemma sampled_minimum_compare :
  exists i u,
    findMinimum (mkCurve us (van_deemter_arr us A B C)) = inr (u, Fin (H u)) /\
    nth_error us i = Some u /\ 0 < u /\
    (forall j v, nth_error us j = Some v -> H u <= H v) /\
    (forall j v, (j < i)%nat -> nth_error us j = Some v -> H u < H v).
Proof.
  destruct (findMinimum_first_min (mkCurve us (van_deemter_arr us A B C)))
    as (i & u & m & Hfind & Hu & Hn & Hlb & Hfirst).
  { apply sampled_well_formed; assumption. }
  { apply sampled_nonempty; assumption. }
  cbn [curve_u curve_H] in Hu, Hn, Hlb, Hfirst.
  destruct (sampled_nth_H i u Hu) as [Hpos Hi].
  assert (m = Fin (H u)) as -> by congruence.
  exists i, u. split; [exact Hfind|]. split; [exact Hu|]. split; [exact Hpos|].
  split.
  - intros j v Hv. destruct (sampled_nth_H j v Hv) as [_ Hj].
    apply np_le_Fin. apply Hlb. eapply nth_error_In; eassumption.
  - intros j v Hji Hv. destruct (sampled_nth_H j v Hv) as [_ Hj].
    apply np_le_Fin_false. eapply Hfirst; eassumption.
Qed.

End SampledMinimum.

(** ** The script on its fixed sampling domain *)

Section Script.

Variables A B C : Q.

Let us : list Q := grid U_MIN U_MAX SAMPLES.
Let c : curve := mkCurve us (van_deemter_arr us A B C).

Lemma U_MIN_pos : 0 < U_MIN.
Proof. reflexivity. Qed.

Lemma U_MIN_MAX : U_MIN < U_MAX.
Proof. reflexivity. Qed.

Lemma SAMPLES_two : (2 <= SAMPLES)%Z.
Proof. unfold SAMPLES. lia. Qed.

Lemma script_curve : sampleCurve U_MIN U_MAX SAMPLES A B C = inr c.
Proof.
  apply sampleCurve_eq; [apply U_MIN_MAX | apply SAMPLES_two].
Qed.

Lemma script_length : length (points c) = 400%nat.
Proof.
  unfold points, c, us, van_deemter_arr. cbn [curve_u curve_H].
  rewrite length_combine, length_map, Nat.min_id.
  rewrite grid_length by apply SAMPLES_two. reflexivity.
Qed.

Lemma script_flow_rates : Forall (fun x => 1 <= x <= 200) us.
Proof.
  apply Forall_forall. intros x Hx. split.
  - apply grid_lower in Hx; [exact Hx | apply SAMPLES_two | apply U_MIN_MAX].
  - apply grid_upper in Hx; [exact Hx | apply SAMPLES_two | apply U_MIN_MAX].
Qed.

Lemma script_finite : all_finite (van_deemter_arr us A B C).
Proof.
  apply sampled_finite;
    [apply U_MIN_pos | apply U_MIN_MAX | apply SAMPLES_two].
Qed.

(** Lines 52-57 never raise, and they report the first minimum of the
    sampled plate heights with the flow rate at the same index. *)
Lemma optimum_first_min :
  exists i u H,
    optimum A B C = inr (c, (u, H)) /\
    nth_error us i = Some u /\
    first_min (van_deemter_arr us A B C) i H.
Proof.
  destruct (findMinimum_first_min c) as (i & u & H & Hfind & Hu & Hfm).
  { apply sampled_well_formed;
      [apply U_MIN_pos | apply U_MIN_MAX | apply SAMPLES_two]. }
  { apply sampled_nonempty; apply SAMPLES_two. }
  exists i, u, H. repeat split; try assumption; try apply Hfm.
  unfold optimum.
  rewrite (bind_inr _ _ _ script_curve), (bind_inr _ _ _ Hfind).
  reflexivity.
Qed.

End Script.

(** * The claims *)

(** C1.  For every flow rate [u > 0] and coefficients [A, B, C >= 0],
    [van_deemter(u, A, B, C)] returns [A + B/u + C*u]: the scalar call
    returns it without raising, and the array call yields it as a finite
    element. *)
Theorem evaluate_formula (u A B C : Q) :
  0 < u -> 0 <= A -> 0 <= B -> 0 <= C ->
  van_deemter u A B C = inr (A + B / u + C * u) /\
  van_deemter_arr [u] A B C = [Fin (A + B / u + C * u)].
Proof.
  intros Hu _ _ _. split.
  - apply van_deemter_nonzero. lra.
  - unfold van_deemter_arr. simpl. f_equal.
    apply van_deemter_elem_nonzero. lra.
Qed.

Lemma evaluate_formula_witness :
  (0 < 50 /\ 0 <= 1 # 2 /\ 0 <= 1 # 10 /\ 0 <= 1 # 100) /\
  van_deemter 50 (1 # 2) (1 # 10) (1 # 100)
    = inr ((1 # 2) + (1 # 10) / 50 + (1 # 100) * 50) /\
  van_deemter_arr [50] (1 # 2) (1 # 10) (1 # 100)
    = [Fin ((1 # 2) + (1 # 10) / 50 + (1 # 100) * 50)].
Proof.
  assert (Hu : 0 < 50) by reflexivity.
  assert (HA : 0 <= 1 # 2) by (unfold Qle; simpl; lia).
  assert (HB : 0 <= 1 # 10) by (unfold Qle; simpl; lia).
  assert (HC : 0 <= 1 # 100) by (unfold Qle; simpl; lia).
  split; [auto|].
  apply (evaluate_formula 50 (1 # 2) (1 # 10) (1 # 100) Hu HA HB HC).
Defined.

(** C2.  On a non-empty curve (parallel arrays, plate heights that are
    numbers, flow rates in increasing order) [findMinimum] returns a
    point of the curve whose [H] is below or equal to the [H] of every
    point; among the points of minimal [H] it is the first in sample
    order, which is the one of smallest [u]. *)
Theorem findMinimum_minimal (c : curve) :
  well_formed c ->
  strictly_increasing (curve_u c) ->
  points c <> [] ->
  exists (i : nat) (u : Q) (H : npfloat),
    findMinimum c = inr (u, H) /\
    In (u, H) (points c) /\
    (forall u' H', In (u', H') (points c) -> np_le H H' = true) /\
    nth_error (points c) i = Some (u, H) /\
    (forall j u' H', (j < i)%nat ->
       nth_error (points c) j = Some (u', H') -> np_le H' H = false) /\
    (forall u' H', In (u', H') (points c) -> np_le H' H = true -> u <= u').
Proof.
  intros Hwf Hinc Hne.
  assert (HneH : curve_H c <> []).
  { intros E. apply Hne. unfold points. rewrite E.
    destruct (curve_u c); reflexivity. }
  destruct (findMinimum_first_min c Hwf HneH)
    as (i & u & H & Hfind & Hu & HH & Hlb & Hfirst).
  exists i, u, H. repeat split.
  - exact Hfind.
  - eapply points_nth; eassumption.
  - intros u' H' Hin. apply points_In in Hin as (j & _ & Hj).
    apply Hlb. eapply nth_error_In; eassumption.
  - apply nth_error_combine. auto.
  - intros j u' H' Hji Hj. apply nth_error_combine in Hj as [_ Hj]. eauto.
  - intros u' H' Hin Hle. apply points_In in Hin as (j & Hju & HjH).
    destruct (Nat.lt_trichotomy j i) as [Hlt | [-> | Hgt]].
    + rewrite (Hfirst j H' Hlt HjH) in Hle. discriminate.
    + assert (u' = u) as -> by congruence. lra.
    + apply Qlt_le_weak. eapply Hinc; eassumption.
Qed.

Lemma findMinimum_minimal_witness :
  (well_formed tied_curve /\ strictly_increasing (curve_u tied_curve) /\
   points tied_curve <> []) /\
  exists (i : nat) (u : Q) (H : npfloat),
    findMinimum tied_curve = inr (u, H) /\
    In (u, H) (points tied_curve) /\
    (forall u' H', In (u', H') (points tied_curve) -> np_le H H' = true) /\
    nth_error (points tied_curve) i = Some (u, H) /\
    (forall j u' H', (j < i)%nat ->
       nth_error (points tied_curve) j = Some (u', H') -> np_le H' H = false) /\
    (forall u' H', In (u', H') (points tied_curve) -> np_le H' H = true -> u <= u').
Proof.
  assert (Hwf : well_formed tied_curve)
    by (split; [reflexivity | apply no_nanb_spec; reflexivity]).
  assert (Hinc : strictly_increasing (curve_u tied_curve))
    by (apply increasingb_spec; reflexivity).
  assert (Hne : points tied_curve <> []) by (simpl; discriminate).
  split; [auto|].
  apply (findMinimum_minimal tied_curve Hwf Hinc Hne).
Defined.

(** C3, as stated, fails: a negative flow rate is not rejected, the
    scalar call returns a value for it. *)
Lemma evaluate_nonpositive_not_rejected :
  ~ (forall u A B C : Q, u <= 0 -> raises (van_deemter u A B C)).
Proof.
  intros H.
  destruct (H (-1) (1 # 2) (1 # 10) (1 # 100)) as [e He].
  - unfold Qle; simpl; lia.
  - vm_compute in He. discriminate.
Qed.

(** C3, amended.  For [u <= 0] the scalar call raises exactly when [u]
    is zero, and the exception is Python's [ZeroDivisionError]; for a
    negative [u] it returns [A + B/u + C*u]. *)
Theorem evaluate_nonpositive (u A B C : Q) :
  u <= 0 ->
  (u == 0 /\ van_deemter u A B C = inl ZeroDivisionError) \/
  (u < 0 /\ van_deemter u A B C = inr (A + B / u + C * u)).
Proof.
  intros Hu. destruct (Qeq_dec u 0) as [Hz | Hnz].
  - left. split; [assumption | now apply van_deemter_zero].
  - right. split; [lra | now apply van_deemter_nonzero].
Qed.

Lemma evaluate_nonpositive_witness :
  0 <= 0 /\
  ((0 == 0 /\ van_deemter 0 (1 # 2) (1 # 10) (1 # 100) = inl ZeroDivisionError) \/
   (0 < 0 /\ van_deemter 0 (1 # 2) (1 # 10) (1 # 100)
             = inr ((1 # 2) + (1 # 10) / 0 + (1 # 100) * 0))).
Proof.
  assert (Hu : 0 <= 0) by (unfold Qle; simpl; lia).
  split; [exact Hu|].
  apply (evaluate_nonpositive 0 (1 # 2) (1 # 10) (1 # 100) Hu).
Defined.




(** C5, as stated, fails on machine floats: between 1 and the next
    float above it, a valid domain, 400 samples cannot all differ, and
    [np.linspace] returns repeated flow rates. *)
Lemma binary64_flow_rates_can_repeat :
  (PrimFloat.ltb 0 1 = true /\
   PrimFloat.ltb 1 (PrimFloat.next_up 1) = true /\
   (2 <= 400)%Z) /\
  exists us,
    Binary64.linspace 1 (PrimFloat.next_up 1) 400 = inr us /\
    Binary64.increasingb us = false.
Proof.
  split; [repeat split; try reflexivity; lia|].
  eexists. split; [vm_compute; reflexivity|]. vm_compute. reflexivity.
Qed.

(** C5, amended.  For the script's own call, [u_min = 1], [u_max = 200]
    and 400 samples, the flow rates of the curve are strictly
    increasing, in the exact model and on machine floats. *)
Theorem script_flow_rates_increasing (A B C : Q) :
  (exists c : curve,
     sampleCurve U_MIN U_MAX SAMPLES A B C = inr c /\
     strictly_increasing (curve_u c)) /\
  (exists us,
     Binary64.linspace (Binary64.of_int 1) (Binary64.of_int 200) 400 = inr us /\
     length us = 400%nat /\
     Binary64.increasingb us = true).
Proof.
  split.
  - eexists. split; [apply script_curve|].
    cbn [curve_u]. apply grid_increasing; [apply SAMPLES_two | apply U_MIN_MAX].
  - eexists. split; [vm_compute; reflexivity|].
    split; vm_compute; reflexivity.
Qed.

(** C6.  [findMinimum] on a curve with zero points fails: [np.min]
    raises [ValueError] on the empty array of plate heights. *)
Theorem findMinimum_empty (c : curve) :
  length (curve_u c) = length (curve_H c) ->
  points c = [] ->
  findMinimum c = inl ValueError.
Proof.
  destruct c as [us Hs]. unfold points. simpl. intros Hlen Hp.
  destruct Hs as [| h Hs]; [reflexivity|].
  destruct us as [| u us]; simpl in *; discriminate.
Qed.

Lemma findMinimum_empty_witness :
  points (mkCurve [] []) = [] /\
  findMinimum (mkCurve [] []) = inl ValueError.
Proof.
  split; [reflexivity|].
  apply (findMinimum_empty (mkCurve [] [])); reflexivity.
Defined.




(** C8.  On every input the sliders can supply the script raises
    nothing: each division is by a flow rate of at least 1 (the samples
    lie in [1, 200], the selected flow rate is at least 1), the curve the
    minimum is taken over has its 400 points, and every plate height is a
    finite number. *)
Theorem script_total (A B C : Q) (current_u : Z) :
  slider_A A -> slider_B B -> slider_C C -> slider_u current_u ->
  exists r : output,
    vandeemter_app A B C current_u = inr r /\
    length (points (out_curve r)) = 400%nat /\
    Forall (fun u => 1 <= u <= 200) (curve_u (out_curve r)) /\
    1 <= inject_Z current_u /\
    all_finite (curve_H (out_curve r)) /\
    np_isfinite (H_min r) = true.
Proof.
  intros _ _ _ [Hu1 _].
  destruct (optimum_first_min A B C) as (i & u & H & Hopt & _ & Hfm & _).
  assert (Hcur : 1 <= inject_Z current_u) by (unfold Qle; simpl; lia).
  assert (Hval : van_deemter (inject_Z current_u) A B C =
                 inr (A + B / inject_Z current_u + C * inject_Z current_u))
    by (apply van_deemter_nonzero; lra).
  eexists. split.
  - unfold vandeemter_app.
    rewrite (bind_inr _ _ _ Hopt), (bind_inr _ _ _ Hval).
    reflexivity.
  - cbn [out_curve H_min fst snd curve_u curve_H].
    split; [apply script_length|].
    split; [apply script_flow_rates|].
    split; [exact Hcur|].
    split; [apply script_finite|].
    pose proof (script_finite A B C) as Hfin.
    unfold all_finite in Hfin. rewrite Forall_forall in Hfin.
    apply Hfin. eapply nth_error_In; eassumption.
Qed.

Lemma script_total_witness :
  (slider_A (1 # 2) /\ slider_B (1 # 10) /\ slider_C (1 # 100) /\ slider_u 50) /\
  exists r : output,
    vandeemter_app (1 # 2) (1 # 10) (1 # 100) 50 = inr r /\
    length (points (out_curve r)) = 400%nat /\
    Forall (fun u => 1 <= u <= 200) (curve_u (out_curve r)) /\
    1 <= inject_Z 50 /\
    all_finite (curve_H (out_curve r)) /\
    np_isfinite (H_min r) = true.
Proof.
  assert (HA : slider_A (1 # 2)) by (unfold slider_A, Qle; simpl; lia).
  assert (HB : slider_B (1 # 10)) by (unfold slider_B, Qle; simpl; lia).
  assert (HC : slider_C (1 # 100)) by (unfold slider_C, Qle; simpl; lia).
  assert (Hu : slider_u 50) by (unfold slider_u; lia).
  split; [auto|].
  apply (script_total (1 # 2) (1 # 10) (1 # 100) 50 HA HB HC Hu).
Defined.

(** C9.  For all coefficients the optimal point the script reports is a
    point of the sampled curve, and its plate height is the value of the
    equation at its flow rate. *)
Theorem optimum_on_curve (A B C : Q) :
  exists (c : curve) (u : Q) (H : npfloat) (h : Q),
    optimum A B C = inr (c, (u, H)) /\
    sampleCurve U_MIN U_MAX SAMPLES A B C = inr c /\
    In (u, H) (points c) /\
    van_deemter u A B C = inr h /\
    H = Fin h.
Proof.
  destruct (optimum_first_min A B C) as (i & u & H & Hopt & Hu & Hi & _).
  destruct (sampled_nth U_MIN U_MAX SAMPLES A B C
              U_MIN_pos U_MIN_MAX SAMPLES_two i H Hi) as (u' & Hu' & Hpos & ->).
  assert (u' = u) as -> by congruence.
  do 4 eexists. split; [exact Hopt|]. split; [apply script_curve|].
  repeat split.
  - eapply points_nth; eassumption.
  - apply van_deemter_nonzero. lra.
Qed.

(** C10.  The sampled minimum is no lower bound for the selected point:
    with the default coefficients [A = 0.5], [B = 0.1], [C = 0.01] and
    the flow rate [u = 3], which is no sample of the curve, the selected
    plate height is strictly below the reported minimum. *)
Theorem selected_below_sampled_minimum :
  exists (A B C : Q) (current_u : Z) (r : output) (h : Q),
    0 <= A /\ 0 <= B /\ 0 <= C /\ (1 <= current_u <= 200)%Z /\
    vandeemter_app A B C current_u = inr r /\
    H_min r = Fin h /\
    H_current r < h.
Proof.
  exists (1 # 2), (1 # 10), (1 # 100), 3%Z.
  do 2 eexists.
  split; [unfold Qle; simpl; lia|].
  split; [unfold Qle; simpl; lia|].
  split; [unfold Qle; simpl; lia|].
  split; [lia|].
  split; [vm_compute; reflexivity|].
  split; [reflexivity|].
  vm_compute. reflexivity.
Qed.

(** ** The script replayed on binary64

    The rounding of machine floats does not change what the exact model
    says about the script's own curve and about the example of C10. *)

(** The 400 flow rates run from 1 to 200 in strictly increasing order. *)
Example binary64_flow_rates :
  option_map (fun r =>
    (length (Binary64.u_values r), hd_error (Binary64.u_values r),
     last (Binary64.u_values r) 0%float,
     Binary64.increasingb (Binary64.u_values r))) (run_binary64 50)
  = Some (400%nat, Some 1%float, 200%float, true).
Proof. vm_compute. reflexivity. Qed.

(** At [u = 3] the selected plate height is below the sampled minimum. *)
Example binary64_selected_below_minimum :
  option_map (fun r =>
    PrimFloat.ltb (Binary64.H_current r) (Binary64.H_min r)) (run_binary64 3)
  = Some true.
Proof. vm_compute. reflexivity. Qed.

(** On the input where rounding makes all plate heights tie, the
    reported minimum is still the plate height at [u_max = 200], and the
    reported flow rate has that plate height. *)
Example binary64_absorbed_minimum :
  exists r h,
    Binary64.vandeemter_app 1e16 1 0 50 = inr r /\
    Binary64.van_deemter (Binary64.of_int 200) 1e16 1 0 = inr h /\
    Binary64.H_min r = h /\
    Binary64.van_deemter (Binary64.u_opt r) 1e16 1 0 = inr h /\
    PrimFloat.leb (Binary64.u_opt r) (Binary64.of_int 200) = true.
Proof.
  do 2 eexists.
  split; [vm_compute; reflexivity|].
  split; [vm_compute; reflexivity|].
  split; [reflexivity|].
  split; vm_compute; reflexivity.
Qed.

(** * Further properties of the code *)

(** ** The numpy routines on arbitrary arrays *)

Lemma length_set_last (y : list Q) (v : Q) :
  y <> [] -> length (set_last y v) = length y.
Proof.
  intros Hne. unfold set_last.
  destruct (exists_last Hne) as (l & a & ->).
  rewrite removelast_last, !length_app. reflexivity.
Qed.

Lemma length_arange (num : Z) : length (arange num) = Z.to_nat num.
Proof. unfold arange. now rewrite length_map, length_seq. Qed.

(** [np.linspace] raises for a negative count and otherwise returns as
    many values as asked for, whatever the interval. *)
Lemma linspace_cases (start stop : Q) (num : Z) :
  ((num < 0)%Z /\ linspace start stop num = inl ValueError) \/
  ((0 <= num)%Z /\
   exists l, linspace start stop num = inr l /\ length l = Z.to_nat num).
Proof.
  unfold linspace. destruct (num <? 0)%Z eqn:E0; [left; split; [lia | reflexivity]|].
  right. split; [lia|]. eexists. split; [reflexivity|].
  set (y := map (fun v => v + start) _).
  assert (Hy : length y = Z.to_nat num).
  { unfold y. rewrite length_map.
    destruct (num - 1 >? 0)%Z;
      [destruct (Qeq_bool _ 0)|]; rewrite length_map; apply length_arange. }
  destruct (num >? 1)%Z eqn:E1; [|exact Hy].
  rewrite length_set_last; [exact Hy|].
  intros E. rewrite E in Hy. simpl in Hy. lia.
Qed.

(** The index [np.argmin] returns is an index of the array, with or
    without not-a-number in it. *)
Lemma argmin_scan_lt (ip : list npfloat) :
  forall mp min_ind i,
    (min_ind < i)%nat ->
    (argmin_scan mp min_ind i ip < i + length ip)%nat.
Proof.
  induction ip as [| x ip' IH]; intros mp min_ind i Hlt; simpl; [lia|].
  destruct (np_isnan mp); [lia|].
  destruct (negb (np_ge x mp)).
  - specialize (IH x i (S i)). lia.
  - specialize (IH mp min_ind (S i)). lia.
Qed.

Lemma findMinimum_returns (c : curve) :
  length (curve_u c) = length (curve_H c) -> curve_H c <> [] ->
  exists p, findMinimum c = inr p.
Proof.
  intros Hlen Hne. unfold findMinimum, getitem.
  destruct (curve_H c) as [| x a'] eqn:EH; [congruence|]. simpl.
  pose proof (argmin_scan_lt a' x 0%nat 1%nat) as Hi.
  destruct (nth_error (curve_u c) (argmin_scan x 0 1 a')) as [u |] eqn:Eu.
  - eexists. reflexivity.
  - apply nth_error_None in Eu. simpl in Hlen. lia.
Qed.

(** A not-a-number at the head of the array is the minimum and its
    index is the argmin. *)
Lemma fold_minimum_nan (l : list npfloat) : fold_left np_minimum l NaN = NaN.
Proof. induction l as [| x l IH]; simpl; [reflexivity | exact IH]. Qed.

Lemma argmin_scan_nan (l : list npfloat) (k i : nat) : argmin_scan NaN k i l = k.
Proof. destruct l; reflexivity. Qed.

(** ** Extra properties *)

(** X1.  The two calls of [van_deemter] agree wherever the scalar call
    returns, negative flow rates included.  The scalar call raises
    exactly at [u = 0]; there the array call raises nothing and yields
    plus infinity, minus infinity or not-a-number according to the sign
    of [B]. *)
Theorem scalar_and_array_call (u A B C : Q) :
  match van_deemter u A B C with
  | inr h => ~ u == 0 /\ van_deemter_arr [u] A B C = [Fin h]
  | inl e =>
      e = ZeroDivisionError /\ u == 0 /\
      (0 < B -> van_deemter_arr [u] A B C = [PosInf]) /\
      (B < 0 -> van_deemter_arr [u] A B C = [NegInf]) /\
      (B == 0 -> van_deemter_arr [u] A B C = [NaN])
  end.
Proof.
  unfold van_deemter, van_deemter_arr, van_deemter_elem, np_true_divide.
  simpl. destruct (Qeq_bool u 0) eqn:E.
  - apply Qeq_bool_iff in E. simpl.
    split; [reflexivity|]. split; [assumption|].
    destruct (Qcompare_spec B 0) as [Hz | Hn | Hp]; simpl;
      repeat split; intros; try reflexivity; lra.
  - apply Qeq_bool_neq in E. simpl. split; [assumption | reflexivity].
Qed.

(** X2.  Sampling followed by minimisation (lines 52-57 with any domain
    and count) fails exactly when the count is zero or negative, and the
    exception is then [ValueError]; with at least one sample it returns
    a point, even when the array holds infinities or not-a-number. *)
Theorem sample_then_minimise
    (u_min u_max : Q) (sampleCount : Z) (A B C : Q) :
  match (c <- sampleCurve u_min u_max sampleCount A B C ;; findMinimum c) with
  | inl e => e = ValueError /\ (sampleCount <= 0)%Z
  | inr _ => (1 <= sampleCount)%Z
  end.
Proof.
  unfold sampleCurve.
  destruct (linspace_cases u_min u_max sampleCount)
    as [[Hneg ->] | (Hpos & l & -> & Hlen)]; simpl; [split; [reflexivity | lia]|].
  destruct l as [| u0 l'].
  - simpl in *. split; [reflexivity | lia].
  - destruct (findMinimum_returns
                (mkCurve (u0 :: l') (van_deemter_arr (u0 :: l') A B C)))
      as [p ->].
    + simpl. unfold van_deemter_arr. now rewrite length_map.
    + simpl. discriminate.
    + simpl in Hlen. lia.
Qed.

(** X3.  With a single sample the curve is the one point at [u_min]:
    [u_max] plays no part, and [findMinimum] returns that point whatever
    its plate height is. *)
Theorem single_sample (u_min u_max A B C : Q) :
  exists (u0 : Q) (H : npfloat),
    sampleCurve u_min u_max 1 A B C = inr (mkCurve [u0] [H]) /\
    u0 == u_min /\
    H = van_deemter_elem A B C u0 /\
    findMinimum (mkCurve [u0] [H]) = inr (u0, H).
Proof.
  exists (0 * (u_max - u_min) + u_min),
         (van_deemter_elem A B C (0 * (u_max - u_min) + u_min)).
  split; [reflexivity|]. split; [ring|]. split; reflexivity.
Qed.

(** X4.  The script's computation (lines 52-60) raises exactly when the
    selected flow rate is zero, whatever the coefficients, negative ones
    included; the exception is [ZeroDivisionError], and otherwise the
    selected plate height is [A + B/u + C*u]. *)
Theorem script_raises_iff_zero (A B C : Q) (current_u : Z) :
  match vandeemter_app A B C current_u with
  | inl e => e = ZeroDivisionError /\ current_u = 0%Z
  | inr r =>
      current_u <> 0%Z /\
      H_current r = A + B / inject_Z current_u + C * inject_Z current_u
  end.
Proof.
  destruct (optimum_first_min A B C) as (i & u & H & Hopt & _).
  unfold vandeemter_app. rewrite (bind_inr _ _ _ Hopt).
  destruct (Z.eq_dec current_u 0) as [-> | Hnz].
  - split; reflexivity.
  - assert (Hq : ~ inject_Z current_u == 0).
    { intros E. apply Hnz. now apply (inject_Z_injective current_u 0). }
    rewrite (bind_inr _ _ _ (van_deemter_nonzero _ A B C Hq)).
    split; [assumption | reflexivity].
Qed.

(** The same for lines 52-57 of the script. *)
Lemma optimum_compare (A B C : Q) :
  exists i u,
    optimum A B C =
      inr (mkCurve (grid U_MIN U_MAX SAMPLES)
             (van_deemter_arr (grid U_MIN U_MAX SAMPLES) A B C),
           (u, Fin (A + B / u + C * u))) /\
    nth_error (grid U_MIN U_MAX SAMPLES) i = Some u /\ 0 < u /\
    (forall j v, nth_error (grid U_MIN U_MAX SAMPLES) j = Some v ->
       A + B / u + C * u <= A + B / v + C * v) /\
    (forall j v, (j < i)%nat -> nth_error (grid U_MIN U_MAX SAMPLES) j = Some v ->
       A + B / u + C * u < A + B / v + C * v).
Proof.
  destruct (sampled_minimum_compare U_MIN U_MAX SAMPLES A B C
              U_MIN_pos U_MIN_MAX SAMPLES_two)
    as (i & u & Hfind & Hrest).
  exists i, u. split; [|exact Hrest].
  unfold optimum.
  rewrite (bind_inr _ _ _ (script_curve A B C)), (bind_inr _ _ _ Hfind).
  reflexivity.
Qed.

Lemma script_grid_increasing (i j : nat) (a b : Q) :
  (i < j)%nat ->
  nth_error (grid U_MIN U_MAX SAMPLES) i = Some a ->
  nth_error (grid U_MIN U_MAX SAMPLES) j = Some b ->
  a < b.
Proof. apply grid_increasing; [apply SAMPLES_two | apply U_MIN_MAX]. Qed.

Lemma script_grid_positive (j : nat) (v : Q) :
  nth_error (grid U_MIN U_MAX SAMPLES) j = Some v -> 0 < v.
Proof.
  intros Hv.
  apply (grid_positive U_MIN U_MAX SAMPLES U_MIN_pos U_MIN_MAX SAMPLES_two).
  eapply nth_error_In; eassumption.
Qed.

(** The equation does not decrease when a coefficient grows. *)
Lemma plate_height_monotone (A A' B B' C C' u : Q) :
  0 < u -> A <= A' -> B <= B' -> C <= C' ->
  A + B / u + C * u <= A' + B' / u + C' * u.
Proof.
  intros Hu HA HB HC.
  assert (Hinv : 0 < / u) by (apply Qinv_lt_0_compat; assumption).
  assert (H1 : B * / u <= B' * / u) by (apply Qmult_le_compat_r; lra).
  assert (H2 : C * u <= C' * u) by (apply Qmult_le_compat_r; lra).
  unfold Qdiv. lra.
Qed.

(** X5.  Raising a coefficient never lowers what the script reports:
    if [A <= A'], [B <= B'] and [C <= C'], the reported minimal plate
    height for [A, B, C] is at most the one for [A', B', C'], and for a
    selected flow rate of at least 1 so is the selected plate height. *)
Theorem script_monotone_in_coefficients
    (A A' B B' C C' : Q) (current_u : Z) :
  A <= A' -> B <= B' -> C <= C' -> (1 <= current_u)%Z ->
  exists (r r' : output) (h h' : Q),
    vandeemter_app A B C current_u = inr r /\
    vandeemter_app A' B' C' current_u = inr r' /\
    H_min r = Fin h /\ H_min r' = Fin h' /\
    h <= h' /\
    H_current r <= H_current r'.
Proof.
  intros HA HB HC Hu.
  destruct (optimum_compare A B C) as (i & u & Hopt & Hui & Hpos & Hlb & _).
  destruct (optimum_compare A' B' C')
    as (i' & u' & Hopt' & Hui' & Hpos' & _).
  assert (Hcur : 0 < inject_Z current_u) by (apply inject_Z_pos; lia).
  assert (Hnz : ~ inject_Z current_u == 0) by lra.
  do 4 eexists. split; [|split; [|split; [|split; [|split]]]].
  - unfold vandeemter_app.
    rewrite (bind_inr _ _ _ Hopt),
            (bind_inr _ _ _ (van_deemter_nonzero _ A B C Hnz)).
    reflexivity.
  - unfold vandeemter_app.
    rewrite (bind_inr _ _ _ Hopt'),
            (bind_inr _ _ _ (van_deemter_nonzero _ A' B' C' Hnz)).
    reflexivity.
  - reflexivity.
  - reflexivity.
  - (* the minimum for [A, B, C] is below its value at the other optimum *)
    pose proof (Hlb i' u' Hui') as H1.
    pose proof (plate_height_monotone A A' B B' C C' u' Hpos' HA HB HC) as H2.
    lra.
  - cbn [H_current]. now apply plate_height_monotone.
Qed.

Lemma script_monotone_in_coefficients_witness :
  ((1 # 2) <= 1 /\ (1 # 10) <= (2 # 10) /\ (1 # 100) <= (1 # 100) /\
   (1 <= 50)%Z) /\
  exists (r r' : output) (h h' : Q),
    vandeemter_app (1 # 2) (1 # 10) (1 # 100) 50 = inr r /\
    vandeemter_app 1 (2 # 10) (1 # 100) 50 = inr r' /\
    H_min r = Fin h /\ H_min r' = Fin h' /\
    h <= h' /\
    H_current r <= H_current r'.
Proof.
  assert (HA : (1 # 2) <= 1) by (unfold Qle; simpl; lia).
  assert (HB : (1 # 10) <= (2 # 10)) by (unfold Qle; simpl; lia).
  assert (HC : (1 # 100) <= (1 # 100)) by (unfold Qle; simpl; lia).
  assert (Hu : (1 <= 50)%Z) by lia.
  split; [auto|].
  apply (script_monotone_in_coefficients
           (1 # 2) 1 (1 # 10) (2 # 10) (1 # 100) (1 # 100) 50 HA HB HC Hu).
Defined.

(** X9.  Without longitudinal diffusion ([B = 0]) and with [C >= 0] the
    plate height does not decrease with the flow rate, and the script
    reports the first sample: the optimal flow rate equals 1 and the
    minimal plate height equals [A + C].  This covers the flat curve
    [B = C = 0], where every sample ties. *)
Theorem optimum_without_longitudinal_diffusion (A B C : Q) :
  B == 0 -> 0 <= C ->
  exists (c : curve) (u h : Q),
    optimum A B C = inr (c, (u, Fin h)) /\
    hd_error (curve_u c) = Some u /\
    u == 1 /\
    h == A + C.
Proof.
  intros HB HC.
  destruct (optimum_compare A B C) as (i & u & Hopt & Hu & Hpos & Hlb & Hfirst).
  destruct (grid_first U_MIN U_MAX SAMPLES SAMPLES_two)
    as (x0 & Hhd & Hx0).
  assert (Hx0n : nth_error (grid U_MIN U_MAX SAMPLES) 0 = Some x0).
  { destruct (grid U_MIN U_MAX SAMPLES); simpl in *; congruence. }
  assert (Hi : i = 0%nat).
  { destruct i as [| i']; [reflexivity|]. exfalso.
    assert (H0i : (0 < S i')%nat) by lia.
    pose proof (script_grid_increasing 0 (S i') x0 u H0i Hx0n Hu) as Hlt.
    pose proof (Hfirst 0%nat x0 H0i Hx0n) as Hstrict.
    rewrite HB in Hstrict. unfold Qdiv in Hstrict.
    assert (0 <= C * (u - x0)) by (apply Qmult_le_0_compat; lra).
    lra. }
  subst i. assert (x0 = u) as -> by congruence.
  do 3 eexists. split; [exact Hopt|]. cbn [curve_u].
  split; [exact Hhd|]. split; [exact Hx0|].
  rewrite HB, Hx0. unfold U_MIN, Qdiv. ring.
Qed.

Lemma optimum_without_longitudinal_diffusion_witness :
  (0 == 0 /\ 0 <= 1 # 100) /\
  exists (c : curve) (u h : Q),
    optimum (1 # 2) 0 (1 # 100) = inr (c, (u, Fin h)) /\
    hd_error (curve_u c) = Some u /\
    u == 1 /\
    h == (1 # 2) + (1 # 100).
Proof.
  assert (HB : 0 == 0) by reflexivity.
  assert (HC : 0 <= 1 # 100) by (unfold Qle; simpl; lia).
  split; [auto|].
  apply (optimum_without_longitudinal_diffusion (1 # 2) 0 (1 # 100) HB HC).
Defined.

(** X10.  At the two ends of the flow-rate slider the selected point is a
    sample of the curve, and there its plate height is never below the
    reported minimum. *)
Theorem selected_at_slider_ends (A B C : Q) (current_u : Z) :
  current_u = 1%Z \/ current_u = 200%Z ->
  exists (r : output) (h : Q),
    vandeemter_app A B C current_u = inr r /\
    H_min r = Fin h /\
    h <= H_current r.
Proof.
  intros Hends.
  destruct (optimum_compare A B C) as (i & u & Hopt & Hu & Hpos & Hlb & _).
  assert (Hnz : ~ inject_Z current_u == 0).
  { destruct Hends as [-> | ->]; discriminate. }
  do 2 eexists. split; [|split].
  - unfold vandeemter_app.
    rewrite (bind_inr _ _ _ Hopt),
            (bind_inr _ _ _ (van_deemter_nonzero _ A B C Hnz)).
    reflexivity.
  - reflexivity.
  - cbn [H_current]. destruct Hends as [-> | ->].
    + destruct (grid_first U_MIN U_MAX SAMPLES SAMPLES_two)
        as (x0 & Hhd & Hx0).
      assert (Hx0n : nth_error (grid U_MIN U_MAX SAMPLES) 0 = Some x0).
      { destruct (grid U_MIN U_MAX SAMPLES); simpl in *; congruence. }
      pose proof (Hlb 0%nat x0 Hx0n) as Hle. rewrite Hx0 in Hle. exact Hle.
    + exact (Hlb _ _ (grid_last_nth U_MIN U_MAX SAMPLES)).
Qed.

Lemma selected_at_slider_ends_witness :
  (200 = 1 \/ 200 = 200)%Z /\
  exists (r : output) (h : Q),
    vandeemter_app (1 # 2) (1 # 10) (1 # 100) 200 = inr r /\
    H_min r = Fin h /\
    h <= H_current r.
Proof.
  assert (Hends : (200 = 1 \/ 200 = 200)%Z) by (right; reflexivity).
  split; [exact Hends|].
  apply (selected_at_slider_ends (1 # 2) (1 # 10) (1 # 100) 200 Hends).
Defined.

(** X11.  Of the integers the flow-rate slider can return, only its two
    ends, 1 and 200, are samples of the curve: the step 199/399 of the
    script's domain meets no other integer. *)
Theorem integer_samples (A B C : Q) :
  exists c : curve,
    sampleCurve U_MIN U_MAX SAMPLES A B C = inr c /\
    forall current_u : Z,
      slider_u current_u ->
      ((exists x, In x (curve_u c) /\ x == inject_Z current_u) <->
       (current_u = 1 \/ current_u = 200)%Z).
Proof.
  eexists. split; [apply script_curve|]. cbn [curve_u].
  intros u [Hu1 Hu2]. split.
  - intros (x & Hin & Hx). apply In_nth_error in Hin as [i Hi].
    apply grid_nth in Hi as [Hi Hs]; [|apply SAMPLES_two].
    rewrite Hx in Hs. unfold sample, U_MIN, U_MAX, SAMPLES in Hs, Hi.
    change (inject_Z (400 - 1)) with 399 in Hs.
    assert (E : inject_Z (Z.of_nat i * 199 + 399) == inject_Z (u * 399)).
    { rewrite inject_Z_plus, !inject_Z_mult.
      change (inject_Z 199) with 199. change (inject_Z 399) with 399.
      rewrite Hs. field. }
    apply -> inject_Z_injective in E.
    assert (Hdiv : (399 | 199 * Z.of_nat i)%Z) by (exists (u - 1)%Z; lia).
    apply Z.gauss in Hdiv; [|reflexivity].
    destruct Hdiv as [k Hk].
    assert (Hi' : (Z.of_nat i < 400)%Z) by lia.
    assert (k = 0 \/ k = 1)%Z as [-> | ->] by lia; lia.
  - intros [-> | ->].
    + destruct (grid_first U_MIN U_MAX SAMPLES SAMPLES_two) as (x0 & Hhd & Hx0).
      exists x0. split; [|exact Hx0].
      destruct (grid U_MIN U_MAX SAMPLES); simpl in *; [discriminate|].
      left. congruence.
    + exists U_MAX. split; [|reflexivity].
      eapply nth_error_In. apply grid_last_nth.
Qed.


(** X12.  For non-negative [B] and [C] and a selected flow rate of at
    least 1, neither the reported minimal plate height nor the selected
    plate height is below the eddy-diffusion term [A]. *)
Theorem script_never_below_A (A B C : Q) (current_u : Z) :
  0 <= B -> 0 <= C -> (1 <= current_u)%Z ->
  exists (r : output) (h : Q),
    vandeemter_app A B C current_u = inr r /\
    H_min r = Fin h /\
    A <= h /\
    A <= H_current r.
Proof.
  intros HB HC Hu.
  destruct (optimum_compare A B C) as (i & u & Hopt & _ & Hpos & _).
  assert (Hcur : 0 < inject_Z current_u) by (apply inject_Z_pos; lia).
  assert (Hnz : ~ inject_Z current_u == 0) by lra.
  assert (Hbound : forall v, 0 < v -> A <= A + B / v + C * v).
  { intros v Hv.
    assert (0 <= B / v) by (apply Qle_shift_div_l; lra).
    assert (0 <= C * v) by (apply Qmult_le_0_compat; lra).
    lra. }
  do 2 eexists. split; [|split].
  - unfold vandeemter_app.
    rewrite (bind_inr _ _ _ Hopt),
            (bind_inr _ _ _ (van_deemter_nonzero _ A B C Hnz)).
    reflexivity.
  - reflexivity.
  - cbn [H_current]. split; apply Hbound; assumption.
Qed.

Lemma script_never_below_A_witness :
  (0 <= 1 # 10 /\ 0 <= 1 # 100 /\ (1 <= 50)%Z) /\
  exists (r : output) (h : Q),
    vandeemter_app (1 # 2) (1 # 10) (1 # 100) 50 = inr r /\
    H_min r = Fin h /\
    (1 # 2) <= h /\
    (1 # 2) <= H_current r.
Proof.
  assert (HB : 0 <= 1 # 10) by (unfold Qle; simpl; lia).
  assert (HC : 0 <= 1 # 100) by (unfold Qle; simpl; lia).
  assert (Hu : (1 <= 50)%Z) by lia.
  split; [auto|].
  apply (script_never_below_A (1 # 2) (1 # 10) (1 # 100) 50 HB HC Hu).
Defined.

(** ** A sampling domain that starts at zero *)

Lemma van_deemter_elem_zero_nan (A B C u : Q) :
  u == 0 -> B == 0 -> van_deemter_elem A B C u = NaN.
Proof.
  intros Hu HB. unfold van_deemter_elem, np_true_divide.
  apply Qeq_bool_iff in Hu. rewrite Hu.
  apply Qeq_alt in HB. rewrite HB. reflexivity.
Qed.

Lemma van_deemter_elem_zero_inf (A B C u : Q) :
  u == 0 -> 0 < B -> van_deemter_elem A B C u = PosInf.
Proof.
  intros Hu HB. unfold van_deemter_elem, np_true_divide.
  apply Qeq_bool_iff in Hu. rewrite Hu.
  apply Qgt_alt in HB. rewrite HB. reflexivity.
Qed.

Lemma grid_head (start stop : Q) (num : Z) :
  (2 <= num)%Z ->
  exists tl, grid start stop num = sample start stop num 0 :: tl.
Proof.
  intros Hnum. unfold grid.
  destruct (Z.to_nat num - 1)%nat as [| k] eqn:Ek; [lia|].
  simpl. eexists. reflexivity.
Qed.

Lemma sample_zero (start stop : Q) (num : Z) : sample start stop num 0 == start.
Proof. unfold sample. simpl. ring. Qed.

(** X13.  When the sampling domain starts at [u_min = 0] and [B = 0],
    the first plate height is [0/0], not-a-number; nothing is raised,
    and [findMinimum] reports that first point with not-a-number as the
    minimal plate height, whatever the other samples are. *)
Theorem domain_from_zero_without_B
    (u_min u_max : Q) (sampleCount : Z) (A B C : Q) :
  u_min == 0 -> u_min < u_max -> (2 <= sampleCount)%Z -> B == 0 ->
  exists (c : curve) (u0 : Q),
    sampleCurve u_min u_max sampleCount A B C = inr c /\
    hd_error (curve_u c) = Some u0 /\
    u0 == 0 /\
    findMinimum c = inr (u0, NaN).
Proof.
  intros Hmin Hmax Hcount HB.
  destruct (grid_head u_min u_max sampleCount Hcount) as [tl Htl].
  assert (H0 : sample u_min u_max sampleCount 0 == 0)
    by (rewrite sample_zero; exact Hmin).
  do 2 eexists. split; [|split; [|split]].
  - unfold sampleCurve. rewrite linspace_eq by assumption.
    fold (grid u_min u_max sampleCount). rewrite Htl. reflexivity.
  - reflexivity.
  - exact H0.
  - unfold findMinimum, van_deemter_arr. cbn [curve_u curve_H map].
    rewrite (van_deemter_elem_zero_nan A B C _ H0 HB).
    cbn [np_min np_argmin bind ret].
    rewrite fold_minimum_nan, argmin_scan_nan. reflexivity.
Qed.

Lemma domain_from_zero_without_B_witness :
  (0 == 0 /\ 0 < 2 /\ (2 <= 3)%Z /\ 0 == 0) /\
  exists (c : curve) (u0 : Q),
    sampleCurve 0 2 3 (1 # 2) 0 (1 # 100) = inr c /\
    hd_error (curve_u c) = Some u0 /\
    u0 == 0 /\
    findMinimum c = inr (u0, NaN).
Proof.
  assert (H1 : 0 == 0) by reflexivity.
  assert (H2 : 0 < 2) by reflexivity.
  assert (H3 : (2 <= 3)%Z) by lia.
  split; [auto|].
  apply (domain_from_zero_without_B 0 2 3 (1 # 2) 0 (1 # 100) H1 H2 H3 H1).
Defined.

(** X14.  When the sampling domain starts at [u_min = 0] and [B > 0],
    the first plate height is plus infinity and nothing is raised; the
    infinity is never the minimum: [findMinimum] reports a sample with a
    positive flow rate and the finite value of the equation there. *)
Theorem domain_from_zero_with_B
    (u_min u_max : Q) (sampleCount : Z) (A B C : Q) :
  u_min == 0 -> u_min < u_max -> (2 <= sampleCount)%Z -> 0 < B ->
  exists (c : curve) (u h : Q),
    sampleCurve u_min u_max sampleCount A B C = inr c /\
    hd_error (curve_H c) = Some PosInf /\
    findMinimum c = inr (u, Fin h) /\
    0 < u /\
    van_deemter u A B C = inr h.
Proof.
  intros Hmin Hmax Hcount HB.
  set (us := grid u_min u_max sampleCount).
  set (c := mkCurve us (van_deemter_arr us A B C)).
  assert (Hstep : 0 < (u_max - u_min) / inject_Z (sampleCount - 1))
    by (apply step_pos; assumption).
  (* every plate height is the infinity of index 0 or a finite value *)
  assert (Helem : forall j v, nth_error us j = Some v ->
            (j = 0%nat /\ van_deemter_elem A B C v = PosInf) \/
            (0 < v /\ van_deemter_elem A B C v = Fin (A + B / v + C * v))).
  { intros j v Hv. apply grid_nth in Hv as [_ Hs]; [|assumption].
    destruct j as [| j'].
    - left. split; [reflexivity|].
      apply van_deemter_elem_zero_inf; [|assumption].
      rewrite Hs, sample_zero. exact Hmin.
    - right.
      assert (Hpos : 0 < v).
      { rewrite Hs. unfold sample.
        pose proof (inject_Z_lt 0 (S j') ltac:(lia)) as Hj.
        change (inject_Z (Z.of_nat 0)) with 0 in Hj.
        assert (0 < inject_Z (Z.of_nat (S j'))
                    * ((u_max - u_min) / inject_Z (sampleCount - 1)))
          by (apply Qmult_lt_0_compat; assumption).
        lra. }
      split; [assumption|]. apply van_deemter_elem_nonzero. lra. }
  assert (Hwf : well_formed c).
  { split; cbn [c curve_u curve_H].
    - unfold van_deemter_arr. now rewrite length_map.
    - unfold no_nan. apply Forall_forall. intros y Hy.
      unfold van_deemter_arr in Hy. apply in_map_iff in Hy as (v & <- & Hv).
      apply In_nth_error in Hv as [j Hj].
      destruct (Helem j v Hj) as [[_ ->] | [_ ->]]; reflexivity. }
  assert (Hne : curve_H c <> []).
  { cbn [c curve_H]. intros E. apply (f_equal (@length _)) in E.
    unfold van_deemter_arr in E. rewrite length_map in E.
    unfold us in E. rewrite grid_length in E by assumption. simpl in E. lia. }
  destruct (findMinimum_first_min c Hwf Hne)
    as (i & u & H & Hfind & Hu & Hn & Hlb & _).
  cbn [c curve_u curve_H] in Hu, Hn, Hlb.
  assert (HH : H = van_deemter_elem A B C u).
  { unfold van_deemter_arr in Hn. rewrite nth_error_map, Hu in Hn.
    simpl in Hn. congruence. }
  (* the last sample is [u_max > 0]: its plate height is finite *)
  pose proof (grid_last_nth u_min u_max sampleCount) as Hlast. fold us in Hlast.
  assert (HlastH : In (Fin (A + B / u_max + C * u_max))
                      (van_deemter_arr us A B C)).
  { unfold van_deemter_arr. apply in_map_iff. exists u_max. split.
    - apply van_deemter_elem_nonzero. lra.
    - eapply nth_error_In; eassumption. }
  specialize (Hlb _ HlastH).
  destruct (grid_head u_min u_max sampleCount Hcount) as [tl Htl].
  exists c, u, (A + B / u + C * u).
  split; [apply sampleCurve_eq; assumption|].
  split.
  { cbn [c curve_H]. unfold us, van_deemter_arr. rewrite Htl. simpl.
    f_equal. apply van_deemter_elem_zero_inf; [|assumption].
    rewrite sample_zero. exact Hmin. }
  destruct (Helem i u Hu) as [[_ Hinf] | [Hpos Hfin]].
  - rewrite HH, Hinf in Hlb. discriminate.
  - rewrite Hfind, HH, Hfin. split; [reflexivity|].
    split; [assumption|]. apply van_deemter_nonzero. lra.
Qed.

Lemma domain_from_zero_with_B_witness :
  (0 == 0 /\ 0 < 2 /\ (2 <= 3)%Z /\ 0 < 1 # 10) /\
  exists (c : curve) (u h : Q),
    sampleCurve 0 2 3 (1 # 2) (1 # 10) (1 # 100) = inr c /\
    hd_error (curve_H c) = Some PosInf /\
    findMinimum c = inr (u, Fin h) /\
    0 < u /\
    van_deemter u (1 # 2) (1 # 10) (1 # 100) = inr h.
Proof.
  assert (H1 : 0 == 0) by reflexivity.
  assert (H2 : 0 < 2) by reflexivity.
  assert (H3 : (2 <= 3)%Z) by lia.
  assert (H4 : 0 < 1 # 10) by reflexivity.
  split; [auto|].
  apply (domain_from_zero_with_B 0 2 3 (1 # 2) (1 # 10) (1 # 100) H1 H2 H3 H4).
Defined.

(** ** Not-a-number in the curve *)

Lemma np_le_nan_r (x : npfloat) : np_le x NaN = false.
Proof. destruct x; reflexivity. Qed.

Lemma np_minimum_not_nan (x y : npfloat) :
  np_isnan x = false -> np_isnan y = false -> np_isnan (np_minimum x y) = false.
Proof. intros Hx Hy. unfold np_minimum. destruct (_ || _); assumption. Qed.

(** The reduction and the scan up to and past the first not-a-number. *)
Lemma scan_to_nan (p post : list npfloat) :
  forall mp k i,
    np_isnan mp = false -> no_nan p ->
    fold_left np_minimum (p ++ NaN :: post) mp = NaN /\
    argmin_scan mp k i (p ++ NaN :: post) = (i + length p)%nat.
Proof.
  induction p as [| x p' IH]; intros mp k i Hmp Hp.
  - simpl. unfold np_minimum, np_ge. rewrite np_le_nan_r, Hmp. simpl.
    rewrite fold_minimum_nan, argmin_scan_nan. split; [reflexivity | lia].
  - inversion Hp as [| ? ? Hx Hp']; subst. simpl. rewrite Hmp.
    destruct (IH (np_minimum mp x) k (S i)
                 (np_minimum_not_nan mp x Hmp Hx) Hp') as [Hfold _].
    split; [exact Hfold|].
    destruct (negb (np_ge x mp)).
    + destruct (IH x i (S i) Hx Hp') as [_ ->]. lia.
    + destruct (IH mp k (S i) Hmp Hp') as [_ ->]. lia.
Qed.

(** X15.  When the plate heights hold a not-a-number, [findMinimum]
    raises nothing and reports the point of the first not-a-number, with
    not-a-number as its minimal plate height: the values are then not
    compared. *)
Theorem findMinimum_nan (c : curve) (k : nat) :
  length (curve_u c) = length (curve_H c) ->
  nth_error (curve_H c) k = Some NaN ->
  (forall j h, (j < k)%nat -> nth_error (curve_H c) j = Some h ->
     np_isnan h = false) ->
  exists u, nth_error (curve_u c) k = Some u /\ findMinimum c = inr (u, NaN).
Proof.
  intros Hlen Hk Hbefore.
  assert (Hku : (k < length (curve_u c))%nat).
  { rewrite Hlen. apply nth_error_Some. congruence. }
  destruct (nth_error (curve_u c) k) as [u |] eqn:Hu;
    [| apply nth_error_None in Hu; lia].
  exists u. split; [reflexivity|].
  unfold findMinimum.
  destruct (curve_H c) as [| x rest] eqn:EH; [destruct k; discriminate|].
  cbn [np_min np_argmin bind ret].
  destruct k as [| k'].
  - injection Hk as ->.
    rewrite fold_minimum_nan, argmin_scan_nan.
    unfold getitem. rewrite Hu. reflexivity.
  - simpl in Hk. apply nth_error_split in Hk as (p & post & -> & Hp).
    assert (Hx : np_isnan x = false) by (apply (Hbefore 0%nat); [lia | reflexivity]).
    assert (Hnp : no_nan p).
    { apply Forall_forall. intros h Hh. apply In_nth_error in Hh as [j Hj].
      assert (Hjp : (j < length p)%nat) by (apply nth_error_Some; congruence).
      apply (Hbefore (S j)); [lia|]. simpl.
      rewrite nth_error_app1 by assumption. exact Hj. }
    destruct (scan_to_nan p post x 0%nat 1%nat Hx Hnp) as [Hfold Harg].
    rewrite Hfold, Harg. cbn [Nat.add]. rewrite Hp.
    unfold getitem. rewrite Hu. reflexivity.
Qed.

Lemma findMinimum_nan_witness :
  (length [1; 2; 3] = length [Fin 3; NaN; Fin 1] /\
   nth_error [Fin 3; NaN; Fin 1] 1 = Some NaN) /\
  exists u,
    nth_error [1; 2; 3] 1 = Some u /\
    findMinimum (mkCurve [1; 2; 3] [Fin 3; NaN; Fin 1]) = inr (u, NaN).
Proof.
  split; [split; reflexivity|].
  apply (findMinimum_nan (mkCurve [1; 2; 3] [Fin 3; NaN; Fin 1]) 1).
  - reflexivity.
  - reflexivity.
  - intros j h Hj Hh. destruct j as [| j]; [|lia].
    simpl in Hh. injection Hh as <-. reflexivity.
Defined.
